(** * communication: topic-framed publish/subscribe over ZeroMQ

    A shallow embedding of [communication/communication.py]: the three
    classes [MessageBroker], [Publisher] and [Subscriber], the Python string
    operations they are written with ([str.format], [len], slicing) and the
    part of the ZeroMQ socket interface they call.

    A Python [str] is modelled as a Rocq [string]; one [ascii] stands for one
    character of the Python string.  Nothing below depends on the size of the
    alphabet.  Python integers are [Z].  Code that may raise returns a
    [result]; code that mutates an object returns the updated object. *)

From Stdlib Require Import String Ascii List ZArith Lia Bool.
Import ListNotations.

Local Open Scope string_scope.
Local Open Scope Z_scope.

(** ** Exceptions and fallible computations *)

(** The exceptions that the modelled code can meet.  [Exception] stands for
    whatever a user-supplied handler raises. *)
Inductive exn : Type :=
| ZMQError (errno : Z)
| IndexError
| ValueError
| Exception (what : string).

Inductive result (A : Type) : Type :=
| Ok (a : A)
| Raise (e : exn).

Arguments Ok {A} a.
Arguments Raise {A} e.

Definition bind {A B : Type} (m : result A) (k : A -> result B) : result B :=
  match m with
  | Ok a => k a
  | Raise e => Raise e
  end.

Notation "x <- m ;; k" := (bind m (fun x => k))
  (at level 61, m at next level, right associativity).
Notation "' p <- m ;; k" := (bind m (fun x => let p := x in k))
  (at level 61, p pattern, m at next level, right associativity).

(** ** Python strings *)

Module PyStr.

(** [len(s)] *)
Definition len (s : string) : Z := Z.of_nat (String.length s).

Fixpoint drop (n : nat) (s : string) : string :=
  match n, s with
  | O, _ => s
  | S _, EmptyString => EmptyString
  | S n', String _ s' => drop n' s'
  end.

Fixpoint take (n : nat) (s : string) : string :=
  match n, s with
  | O, _ => EmptyString
  | S _, EmptyString => EmptyString
  | S n', String c s' => String c (take n' s')
  end.

(** [s[i:]] for an integer [i]: a negative index counts from the end, and
    the start is clamped into [0 .. len(s)]; a slice never raises. *)
Definition slice_from (i : Z) (s : string) : string :=
  let n := len s in
  let start := if i <? 0 then Z.max 0 (n + i) else Z.min i n in
  drop (Z.to_nat start) s.

(** [s.startswith(p)], the character-prefix test. *)
Definition startswith (s p : string) : bool := String.prefix p s.

(** [template.format(a0, a1, ...)] for templates whose replacement fields are all
    the automatic field [{}], the only kind this module writes: [{}] takes
    the next positional argument (an [IndexError] when there is none left,
    surplus arguments are ignored), [{{] and [}}] are the escaped braces, a
    single brace is a [ValueError].  The arguments are strings, which
    format as themselves.  Fields with a name, an index or a format
    specification are outside the fragment and are rejected here. *)
Fixpoint format (template : string) (args : list string) : result string :=
  match template with
  | EmptyString => Ok EmptyString
  | String c rest =>
      if (c =? "{")%char then
        match rest with
        | EmptyString => Raise ValueError
        | String c' rest' =>
            if (c' =? "}")%char then
              match args with
              | [] => Raise IndexError
              | a :: args' =>
                  r <- format rest' args' ;; Ok (a ++ r)
              end
            else if (c' =? "{")%char then
              r <- format rest' args ;; Ok (String "{" r)
            else Raise ValueError
        end
      else if (c =? "}")%char then
        match rest with
        | EmptyString => Raise ValueError
        | String c' rest' =>
            if (c' =? "}")%char then
              r <- format rest' args ;; Ok (String "}" r)
            else Raise ValueError
        end
      else
        r <- format rest args ;; Ok (String c r)
  end.

End PyStr.

(** ** The ZeroMQ sockets the module talks to

    The [zmq] package is a dependency of the repository, not part of it.
    What follows records, per socket, what the module's calls do to it, as
    the ZeroMQ documentation and the repository's specification describe
    them. *)

Module Zmq.

Inductive socket_type : Type := PUB | SUB | XPUB | XSUB.

(** [errno] of "address already in use". *)
Definition EADDRINUSE : Z := 98.

(** Modelled from the spec: a ZeroMQ socket as the module sees it: its
    kind, the endpoints it is bound and connected to, its subscription
    filters (newest first), the frames it was asked to send and the frames
    it has received and not yet handed out (both oldest first). *)
Record socket : Type := mk_socket {
  stype : socket_type;
  bound : list string;
  connected : list string;
  subscriptions : list string;
  outgoing : list string;
  incoming : list string
}.

(** Modelled from the spec: [context.socket(ty)], a fresh socket. *)
Definition new_socket (ty : socket_type) : socket :=
  mk_socket ty [] [] [] [] [].

(** Modelled from the spec: what the sockets' surroundings decide.  Whether
    a bind fails, and with which [errno], is theirs to say, given the
    endpoints bound before it (newest first) and the endpoint asked for; so
    is whether a connect is rejected.  No rule about which binds fail is
    built in. *)
Record world : Type := mk_world {
  bind_errno : list string -> string -> option Z;
  connect_errno : string -> option Z;
  held : list string
}.

(** Modelled from the spec: [sock.bind(endpoint)] raises a [ZMQError] when
    the surroundings say so, and otherwise claims the endpoint. *)
Definition bind (w : world) (sock : socket) (endpoint : string)
  : result (world * socket) :=
  match bind_errno w (held w) endpoint with
  | Some errno => Raise (ZMQError errno)
  | None =>
      Ok (mk_world (bind_errno w) (connect_errno w) (endpoint :: held w),
          mk_socket (stype sock) (endpoint :: bound sock) (connected sock)
            (subscriptions sock) (outgoing sock) (incoming sock))
  end.

(** Modelled from the spec: [sock.connect(endpoint)] raises a [ZMQError]
    when the endpoint is rejected; the connection itself is made in the
    background and needs no peer to be there. *)
Definition connect (w : world) (sock : socket) (endpoint : string)
  : result socket :=
  match connect_errno w endpoint with
  | Some errno => Raise (ZMQError errno)
  | None =>
      Ok (mk_socket (stype sock) (bound sock) (endpoint :: connected sock)
            (subscriptions sock) (outgoing sock) (incoming sock))
  end.

(** Modelled from the spec: [sock.setsockopt_string(zmq.SUBSCRIBE, topic)]
    adds a subscription filter. *)
Definition setsockopt_subscribe (sock : socket) (topic : string) : socket :=
  mk_socket (stype sock) (bound sock) (connected sock)
    (topic :: subscriptions sock) (outgoing sock) (incoming sock).

(** Modelled from the spec: [sock.send_string(frame)] hands one text frame
    to the transport; it does not wait for, or learn about, receivers. *)
Definition send_string (sock : socket) (frame : string) : socket :=
  mk_socket (stype sock) (bound sock) (connected sock)
    (subscriptions sock) (outgoing sock ++ [frame]) (incoming sock).

(** Modelled from the spec: [sock.recv_string()] hands out the oldest
    received frame; [None] when there is none, where the call blocks. *)
Definition recv_string (sock : socket) : option (string * socket) :=
  match incoming sock with
  | [] => None
  | frame :: later =>
      Some (frame,
            mk_socket (stype sock) (bound sock) (connected sock)
              (subscriptions sock) (outgoing sock) later)
  end.

(** Modelled from the spec: a frame reaches the socket. *)
Definition arrive (sock : socket) (frame : string) : socket :=
  mk_socket (stype sock) (bound sock) (connected sock)
    (subscriptions sock) (outgoing sock) (incoming sock ++ [frame]).

(** Modelled from the spec: the subscription test of the transport: a
    frame passes when one of the socket's filters is a prefix of it. *)
Definition accepts (sock : socket) (frame : string) : bool :=
  existsb (PyStr.startswith frame) (subscriptions sock).

(** Modelled from the spec: a published frame is offered to a subscribing
    socket, which receives it when it passes the subscription test. *)
Definition deliver (sock : socket) (frame : string) : socket :=
  if accepts sock frame then arrive sock frame else sock.

Definition distribute (frames : list string) (sock : socket) : socket :=
  fold_left deliver frames sock.

(** Modelled from the spec: one turn of [zmq.proxy]: the oldest frame
    waiting on the frontend is sent on the backend; [None] when the
    frontend has nothing, where the proxy waits. *)
Definition proxy_turn (frontend backend : socket) : option (socket * socket) :=
  match recv_string frontend with
  | None => None
  | Some (frame, frontend') => Some (frontend', send_string backend frame)
  end.

Fixpoint proxy_loop (fuel : nat) (frontend backend : socket) : socket * socket :=
  match fuel with
  | O => (frontend, backend)
  | S fuel' =>
      match proxy_turn frontend backend with
      | None => (frontend, backend)
      | Some (frontend', backend') => proxy_loop fuel' frontend' backend'
      end
  end.

(** Modelled from the spec: [zmq.proxy(frontend, backend)] relays until
    the frontend has nothing left; one turn per waiting frame is enough. *)
Definition proxy (frontend backend : socket) : socket * socket :=
  proxy_loop (List.length (incoming frontend)) frontend backend.

End Zmq.

(** ** class MessageBroker *)

Module MessageBroker.

Record t : Type := mk {
  port_in : string;
  port_out : string;
  daemon : bool
}.

(** [MessageBroker.__init__]: stores the two ports and marks the thread as
    a daemon; no socket is touched. *)
Definition init (port_in port_out : string) : t :=
  mk port_in port_out true.

(** [MessageBroker.run], given the frames that reach the frontend while
    it runs.  The method does not return while the proxy is at work: [Ok]
    carries the broker's sockets once every frame that arrived is relayed
    and the proxy waits for the next one; [Raise] is an exception leaving
    [run]. *)
Definition run (self : t) (w : Zmq.world) (arrivals : list string)
  : result (Zmq.world * (Zmq.socket * Zmq.socket)) :=
  let frontend := Zmq.new_socket Zmq.XSUB in
  endpoint <- PyStr.format "tcp://*:{}" [port_in self] ;;
  ' (w, frontend) <- Zmq.bind w frontend endpoint ;;
  let backend := Zmq.new_socket Zmq.XPUB in
  endpoint <- PyStr.format "tcp://*:{}" [port_out self] ;;
  ' (w, backend) <- Zmq.bind w backend endpoint ;;
  Ok (w, Zmq.proxy (fold_left Zmq.arrive arrivals frontend) backend).

(** What a call of [start] leaves behind: what the caller gets back, and
    what becomes of [run] in the thread. *)
Record started : Type := mk_started {
  to_caller : result unit;
  in_thread : result (Zmq.world * (Zmq.socket * Zmq.socket))
}.

(** Modelled from the spec: [start], which the class inherits from
    [threading.Thread] and which is not part of the repository: [run] is
    carried out as a background task of its own, and the call returns to its
    caller at once, whatever becomes of [run]. *)
Definition start (self : t) (w : Zmq.world) (arrivals : list string)
  : started :=
  mk_started (Ok tt) (run self w arrivals).

End MessageBroker.

(** ** class Publisher *)

Module Publisher.

Record t : Type := mk {
  topic : string;
  socket : Zmq.socket
}.

(** [Publisher.__init__] *)
Definition init (w : Zmq.world) (address port topic : string) : result t :=
  let sock := Zmq.new_socket Zmq.PUB in
  endpoint <- PyStr.format "tcp://{}:{}" [address; port] ;;
  sock <- Zmq.connect w sock endpoint ;;
  Ok (mk topic sock).

(** [Publisher.send] *)
Definition send (self : t) (message : string) : result t :=
  frame <- PyStr.format "{}!{}" [topic self; message] ;;
  Ok (mk (topic self) (Zmq.send_string (socket self) frame)).

End Publisher.

(** ** class Subscriber *)

Module Subscriber.

(** How a call of the user's handler ends: it returns or it raises, and
    either way leaves the state it works on behind. *)
Inductive completion (St : Type) : Type :=
| Returns (st : St)
| Raises (e : exn) (st : St).

Arguments Returns {St} st.
Arguments Raises {St} e st.

Section WithHandler.

(** The state the handler works on and the keyword arguments it takes. *)
Variables St Args : Type.

Record t : Type := mk {
  handler : string -> Args -> St -> completion St;
  args : Args;
  msg_start : Z;
  socket : Zmq.socket;
  daemon : bool
}.

(** [Subscriber.__init__] *)
Definition init (w : Zmq.world) (address port topic : string)
    (handler : string -> Args -> St -> completion St) (args : Args)
  : result t :=
  let msg_start := PyStr.len topic + 1 in
  let sock := Zmq.new_socket Zmq.SUB in
  endpoint <- PyStr.format "tcp://{}:{}" [address; port] ;;
  sock <- Zmq.connect w sock endpoint ;;
  let sock := Zmq.setsockopt_subscribe sock topic in
  Ok (mk handler args msg_start sock true).

(** Where the receive loop stands: the subscriber with what is left on
    its socket, the handler's state, and the payloads the handler was
    called with so far, oldest first. *)
Record progress : Type := mk_progress {
  subscriber : t;
  state : St;
  calls : list string
}.

Inductive outcome : Type :=
| Blocked (p : progress)
| Crashed (e : exn) (p : progress)
| Unfinished (p : progress).

(** The body of [while True:] in [Subscriber.run], at most [fuel] times.
    [Blocked]: [recv_string] waits for a frame.  [Crashed]: the handler
    raised, and the exception left the loop.  [Unfinished]: [fuel] turns
    were not enough. *)
Fixpoint run_loop (fuel : nat) (self : t) (st : St) (calls : list string)
  : outcome :=
  match fuel with
  | O => Unfinished (mk_progress self st calls)
  | S fuel' =>
      match Zmq.recv_string (socket self) with
      | None => Blocked (mk_progress self st calls)
      | Some (msg_orig, sock) =>
          let self := mk (handler self) (args self) (msg_start self) sock
                        (daemon self) in
          let msg := PyStr.slice_from (msg_start self) msg_orig in
          match handler self msg (args self) st with
          | Returns st' => run_loop fuel' self st' (calls ++ [msg])
          | Raises e st' => Crashed e (mk_progress self st' (calls ++ [msg]))
          end
      end
  end.

(** [Subscriber.run] on the frames its socket holds: a frame is consumed
    in every turn, so one turn more than there are frames lets the loop
    reach the point where it waits or dies. *)
Definition run (self : t) (st : St) : outcome :=
  run_loop (S (List.length (Zmq.incoming (socket self)))) self st [].

End WithHandler.

Arguments mk {St Args}.
Arguments handler {St Args}.
Arguments args {St Args}.
Arguments msg_start {St Args}.
Arguments socket {St Args}.
Arguments daemon {St Args}.
Arguments init {St Args}.
Arguments mk_progress {St Args}.
Arguments subscriber {St Args}.
Arguments state {St Args}.
Arguments calls {St Args}.
Arguments Blocked {St Args}.
Arguments Crashed {St Args}.
Arguments Unfinished {St Args}.
Arguments run_loop {St Args}.
Arguments run {St Args}.

End Subscriber.

(** ** Vocabulary of the statements *)

(** *** Strings and frames *)

(** The reserved character between topic and payload. *)
Definition separator : ascii := "!"%char.

Fixpoint contains (c : ascii) (s : string) : bool :=
  match s with
  | EmptyString => false
  | String c' s' => (c' =? c)%char || contains c s'
  end.

Definition is_prefix (p s : string) : Prop := exists rest, s = p ++ rest.

(** A string without its first character. *)
Definition tail (s : string) : string := PyStr.drop 1 s.

(** The frame of a topic and a message. *)
Definition frame_of (topic message : string) : string :=
  topic ++ "!" ++ message.

(** The endpoint a broker binds for a port. *)
Definition bind_endpoint (port : string) : string := "tcp://*:" ++ port.

(** *** Sockets, publishers and subscribers *)

(** The socket with other frames waiting on it. *)
Definition socket_holding (sock : Zmq.socket) (frames : list string)
  : Zmq.socket :=
  Zmq.mk_socket (Zmq.stype sock) (Zmq.bound sock) (Zmq.connected sock)
    (Zmq.subscriptions sock) (Zmq.outgoing sock) frames.

(** The socket after it was asked to send more frames. *)
Definition socket_sending (sock : Zmq.socket) (frames : list string)
  : Zmq.socket :=
  Zmq.mk_socket (Zmq.stype sock) (Zmq.bound sock) (Zmq.connected sock)
    (Zmq.subscriptions sock) (Zmq.outgoing sock ++ frames) (Zmq.incoming sock).

(** The frames a publisher has put on the wire, oldest first. *)
Definition wire (pub : Publisher.t) : list string :=
  Zmq.outgoing (Publisher.socket pub).

(** [Publisher.send] once per message, in order. *)
Fixpoint send_all (pub : Publisher.t) (messages : list string)
  : result Publisher.t :=
  match messages with
  | [] => Ok pub
  | m :: later => pub' <- Publisher.send pub m ;; send_all pub' later
  end.

(** The subscriber with other frames waiting on its socket. *)
Definition holding {St Args : Type} (sub : Subscriber.t St Args)
    (frames : list string) : Subscriber.t St Args :=
  Subscriber.mk (Subscriber.handler sub) (Subscriber.args sub)
    (Subscriber.msg_start sub)
    (socket_holding (Subscriber.socket sub) frames) (Subscriber.daemon sub).

(** The transport offers published frames to a subscriber's socket. *)
Definition offered {St Args : Type} (sub : Subscriber.t St Args)
    (frames : list string) : Subscriber.t St Args :=
  Subscriber.mk (Subscriber.handler sub) (Subscriber.args sub)
    (Subscriber.msg_start sub)
    (Zmq.distribute frames (Subscriber.socket sub)) (Subscriber.daemon sub).

(** Does the subscriber's socket let the frame in? *)
Definition receives {St Args : Type} (sub : Subscriber.t St Args)
    (frame : string) : bool :=
  Zmq.accepts (Subscriber.socket sub) frame.

(** What the subscriber makes of a frame: [msg_orig[self.msg_start:]]. *)
Definition payload {St Args : Type} (sub : Subscriber.t St Args)
    (msg_orig : string) : string :=
  PyStr.slice_from (Subscriber.msg_start sub) msg_orig.

(** *** Outcomes of the receive loop *)

Definition progress_of {St Args : Type} (o : Subscriber.outcome St Args)
  : Subscriber.progress St Args :=
  match o with
  | Subscriber.Blocked p => p
  | Subscriber.Crashed _ p => p
  | Subscriber.Unfinished p => p
  end.

(** The payloads the handler was called with, oldest first. *)
Definition handed {St Args : Type} (o : Subscriber.outcome St Args)
  : list string :=
  Subscriber.calls (progress_of o).

(** The frames left unread on the subscriber's socket. *)
Definition unread {St Args : Type} (o : Subscriber.outcome St Args)
  : list string :=
  Zmq.incoming (Subscriber.socket (Subscriber.subscriber (progress_of o))).

(** The handler's state once it has returned for each of the frames in
    turn, every call starting from the state the one before left; [None]
    when one of these calls raises. *)
Fixpoint returns_through {St Args : Type} (sub : Subscriber.t St Args)
    (frames : list string) (st : St) : option St :=
  match frames with
  | [] => Some st
  | msg_orig :: later =>
      match Subscriber.handler sub (payload sub msg_orig)
              (Subscriber.args sub) st with
      | Subscriber.Returns st' => returns_through sub later st'
      | Subscriber.Raises _ _ => None
      end
  end.

(** The receive loop told by the list of waiting frames; [run_loop] with
    enough fuel is shown to agree with it. *)
Fixpoint dispatch {St Args : Type} (sub : Subscriber.t St Args)
    (frames : list string) (st : St) (calls : list string)
  : Subscriber.outcome St Args :=
  match frames with
  | [] => Subscriber.Blocked (Subscriber.mk_progress (holding sub []) st calls)
  | msg_orig :: later =>
      let msg := payload sub msg_orig in
      match Subscriber.handler sub msg (Subscriber.args sub) st with
      | Subscriber.Returns st' => dispatch sub later st' (calls ++ [msg])
      | Subscriber.Raises e st' =>
          Subscriber.Crashed e
            (Subscriber.mk_progress (holding sub later) st' (calls ++ [msg]))
      end
  end.

(** *** A running example

    Surroundings, handlers, and the publishers and subscribers of one small
    system as their constructors make them when nothing is rejected. *)

(** Surroundings in which no endpoint is rejected and none is taken. *)
Definition quiet : Zmq.world :=
  Zmq.mk_world (fun _ _ => None) (fun _ => None) [].

(** Surroundings in which someone else holds the port 5559. *)
Definition busy : Zmq.world :=
  Zmq.mk_world
    (fun _ endpoint =>
       if String.eqb endpoint "tcp://*:5559" then Some Zmq.EADDRINUSE else None)
    (fun _ => None) [].

(** A handler that keeps the payloads it is called with, oldest first. *)
Definition collect (msg : string) (_ : unit) (seen : list string)
  : Subscriber.completion (list string) :=
  Subscriber.Returns (seen ++ [msg])%list.

(** A handler that raises on one payload and keeps all others. *)
Definition collect_but (bad : string) (msg : string) (_ : unit)
    (seen : list string) : Subscriber.completion (list string) :=
  if String.eqb msg bad then Subscriber.Raises (Exception msg) seen
  else Subscriber.Returns (seen ++ [msg])%list.

Definition weather_pub : Publisher.t :=
  Publisher.mk "weather"
    (Zmq.mk_socket Zmq.PUB [] ["tcp://localhost:5559"] [] [] []).

Definition traffic_pub : Publisher.t :=
  Publisher.mk "traffic"
    (Zmq.mk_socket Zmq.PUB [] ["tcp://localhost:5559"] [] [] []).

Definition weatherman_pub : Publisher.t :=
  Publisher.mk "weatherman"
    (Zmq.mk_socket Zmq.PUB [] ["tcp://localhost:5559"] [] [] []).

Definition weather_sub : Subscriber.t (list string) unit :=
  Subscriber.mk collect tt 8
    (Zmq.mk_socket Zmq.SUB [] ["tcp://localhost:5560"] ["weather"] [] [])
    true.

(** A subscriber for ["weather"] whose handler raises on ["storm"]. *)
Definition picky_sub : Subscriber.t (list string) unit :=
  Subscriber.mk (collect_but "storm") tt 8
    (Zmq.mk_socket Zmq.SUB [] ["tcp://localhost:5560"] ["weather"] [] [])
    true.

(** A subscriber with the empty topic. *)
Definition any_sub : Subscriber.t (list string) unit :=
  Subscriber.mk collect tt 1
    (Zmq.mk_socket Zmq.SUB [] ["tcp://localhost:5560"] [""] [] [])
    true.

(** ** First checks *)

Example format_frame : PyStr.format "{}!{}" ["weather"; "22C"] = Ok "weather!22C".
Proof. reflexivity. Qed.

Example slice_short : PyStr.slice_from 8 "abc" = "".
Proof. reflexivity. Qed.

Example slice_negative : PyStr.slice_from (-2) "abc" = "bc".
Proof. reflexivity. Qed.

Example weather_pub_init :
  Publisher.init quiet "localhost" "5559" "weather" = Ok weather_pub.
Proof. reflexivity. Qed.

Example traffic_pub_init :
  Publisher.init quiet "localhost" "5559" "traffic" = Ok traffic_pub.
Proof. reflexivity. Qed.

Example weatherman_pub_init :
  Publisher.init quiet "localhost" "5559" "weatherman" = Ok weatherman_pub.
Proof. reflexivity. Qed.

Example weather_sub_init :
  Subscriber.init quiet "localhost" "5560" "weather" collect tt = Ok weather_sub.
Proof. reflexivity. Qed.

Example picky_sub_init :
  Subscriber.init quiet "localhost" "5560" "weather" (collect_but "storm") tt
  = Ok picky_sub.
Proof. reflexivity. Qed.

Example any_sub_init :
  Subscriber.init quiet "localhost" "5560" "" collect tt = Ok any_sub.
Proof. reflexivity. Qed.

Example format_too_few : PyStr.format "{}!{}" ["weather"] = Raise IndexError.
Proof. reflexivity. Qed.

(** ** Strings *)

Lemma append_empty_r (s : string) : s ++ "" = s.
Proof. induction s as [|c s IH]; simpl; [reflexivity | now rewrite IH]. Qed.

Lemma append_assoc (a b c : string) : (a ++ b) ++ c = a ++ (b ++ c).
Proof. induction a as [|x a IH]; simpl; [reflexivity | now rewrite IH]. Qed.

Lemma length_append (a b : string) :
  String.length (a ++ b) = (String.length a + String.length b)%nat.
Proof. induction a as [|x a IH]; simpl; [reflexivity | now rewrite IH]. Qed.

Lemma append_inv_head (a b c : string) : a ++ b = a ++ c -> b = c.
Proof.
  induction a as [|x a IH]; simpl; intros H; [exact H|].
  injection H as H. now apply IH.
Qed.

Lemma drop_empty (n : nat) : PyStr.drop n "" = "".
Proof. now destruct n. Qed.

Lemma drop_append_length (a b : string) :
  PyStr.drop (String.length a) (a ++ b) = b.
Proof. induction a as [|x a IH]; simpl; [reflexivity | exact IH]. Qed.

Lemma drop_all (n : nat) (s : string) :
  (String.length s <= n)%nat -> PyStr.drop n s = "".
Proof.
  revert n; induction s as [|c s IH]; intros n H.
  - apply drop_empty.
  - destruct n as [|n]; simpl in *; [lia | apply IH; lia].
Qed.

Lemma drop_drop (n m : nat) (s : string) :
  PyStr.drop n (PyStr.drop m s) = PyStr.drop (m + n) s.
Proof.
  revert s; induction m as [|m IH]; intros s; simpl; [reflexivity|].
  destruct s as [|c s]; [apply drop_empty | apply IH].
Qed.

Lemma take_drop (n : nat) (s : string) : PyStr.take n s ++ PyStr.drop n s = s.
Proof.
  revert s; induction n as [|n IH]; intros s; simpl; [reflexivity|].
  destruct s as [|c s]; simpl; [reflexivity | now rewrite IH].
Qed.

Lemma length_drop (n : nat) (s : string) :
  String.length (PyStr.drop n s) = (String.length s - n)%nat.
Proof.
  revert s; induction n as [|n IH]; intros s; simpl; [lia|].
  destruct s as [|c s]; simpl; [reflexivity | apply IH].
Qed.

(** A slice from a non-negative index drops that many characters; the
    clamping of the index changes nothing. *)
Lemma slice_from_drop (n : nat) (s : string) :
  PyStr.slice_from (Z.of_nat n) s = PyStr.drop n s.
Proof.
  unfold PyStr.slice_from, PyStr.len.
  destruct (Z.ltb_spec (Z.of_nat n) 0) as [H|_]; [lia|].
  destruct (Nat.le_gt_cases n (String.length s)) as [Hle|Hgt].
  - rewrite Z.min_l by lia. now rewrite Nat2Z.id.
  - rewrite Z.min_r by lia. rewrite Nat2Z.id.
    rewrite !drop_all by lia. reflexivity.
Qed.

Lemma slice_from_len_succ (n : nat) (s : string) :
  PyStr.slice_from (Z.of_nat n + 1) s = PyStr.drop (n + 1) s.
Proof.
  replace (Z.of_nat n + 1) with (Z.of_nat (n + 1)) by lia.
  apply slice_from_drop.
Qed.

Lemma prefix_true_iff (p s : string) :
  String.prefix p s = true <-> is_prefix p s.
Proof.
  unfold is_prefix. revert s; induction p as [|c p IH]; intros s.
  - split; [intros _; exists s; reflexivity | intros _; now destruct s].
  - destruct s as [|d s]; simpl.
    + split; [discriminate | intros [r H]; discriminate].
    + destruct (Ascii.ascii_dec c d) as [->|Hne].
      * rewrite IH. split; intros [r H]; exists r.
        -- now rewrite H.
        -- now injection H.
      * split; [discriminate | intros [r H]; injection H; congruence].
Qed.

(** ** The templates of the module *)

Lemma format_frame_eq (topic message : string) :
  PyStr.format "{}!{}" [topic; message] = Ok (topic ++ "!" ++ message).
Proof. simpl. now rewrite append_empty_r. Qed.

Lemma format_connect_eq (address port : string) :
  PyStr.format "tcp://{}:{}" [address; port]
  = Ok ("tcp://" ++ address ++ ":" ++ port).
Proof. simpl. now rewrite append_empty_r. Qed.

Lemma format_bind_eq (port : string) :
  PyStr.format "tcp://*:{}" [port] = Ok ("tcp://*:" ++ port).
Proof. simpl. now rewrite append_empty_r. Qed.

(** ** Construction of publishers and subscribers *)

Lemma publisher_init_inv (w : Zmq.world) (address port topic : string)
    (pub : Publisher.t) :
  Publisher.init w address port topic = Ok pub ->
  Publisher.topic pub = topic /\ wire pub = [].
Proof.
  unfold Publisher.init. rewrite format_connect_eq. unfold bind, Zmq.connect.
  destruct (Zmq.connect_errno w _); [discriminate|].
  intros H; injection H as <-. split; reflexivity.
Qed.

Lemma subscriber_init_inv {St Args : Type} (w : Zmq.world)
    (address port topic : string)
    (h : string -> Args -> St -> Subscriber.completion St) (kw : Args)
    (sub : Subscriber.t St Args) :
  Subscriber.init w address port topic h kw = Ok sub ->
  Subscriber.handler sub = h /\ Subscriber.args sub = kw /\
  Subscriber.msg_start sub = PyStr.len topic + 1 /\
  Zmq.subscriptions (Subscriber.socket sub) = [topic] /\
  Zmq.incoming (Subscriber.socket sub) = [].
Proof.
  unfold Subscriber.init. rewrite format_connect_eq. unfold bind, Zmq.connect.
  destruct (Zmq.connect_errno w _); [discriminate|].
  intros H; injection H as <-. repeat split; reflexivity.
Qed.

Lemma send_puts_frame_exists (pub : Publisher.t) (message : string) :
  exists pub', Publisher.send pub message = Ok pub'.
Proof. unfold Publisher.send. rewrite format_frame_eq. eexists; reflexivity. Qed.

Lemma send_eq (pub : Publisher.t) (message : string) :
  Publisher.send pub message
  = Ok (Publisher.mk (Publisher.topic pub)
          (Zmq.send_string (Publisher.socket pub)
             (Publisher.topic pub ++ "!" ++ message))).
Proof. unfold Publisher.send. now rewrite format_frame_eq. Qed.

(** ** The receive loop *)

Lemma dispatch_holding {St Args : Type} (sub : Subscriber.t St Args)
    (waiting frames : list string) (st : St) (calls : list string) :
  dispatch (holding sub waiting) frames st calls = dispatch sub frames st calls.
Proof.
  revert st calls; induction frames as [|f later IH]; intros st calls; simpl.
  - reflexivity.
  - unfold payload; simpl.
    destruct (Subscriber.handler sub _ _ st) as [st'|e st'];
      [apply IH | reflexivity].
Qed.

Lemma run_loop_dispatch {St Args : Type} (fuel : nat)
    (sub : Subscriber.t St Args) (st : St) (calls : list string) :
  (List.length (Zmq.incoming (Subscriber.socket sub)) < fuel)%nat ->
  Subscriber.run_loop fuel sub st calls
  = dispatch sub (Zmq.incoming (Subscriber.socket sub)) st calls.
Proof.
  revert sub st calls; induction fuel as [|fuel IH]; intros sub st calls Hf;
    [lia|].
  simpl. unfold Zmq.recv_string.
  destruct (Zmq.incoming (Subscriber.socket sub)) as [|f later] eqn:E.
  - destruct sub as [h kw ms [ty bd cn sb out inc] d]; simpl in *.
    subst inc. reflexivity.
  - simpl. unfold payload.
    destruct (Subscriber.handler sub _ _ st) as [st'|e st'].
    + rewrite IH by (simpl in *; lia). simpl.
      apply (dispatch_holding sub later later).
    + reflexivity.
Qed.

Lemma run_dispatch {St Args : Type} (sub : Subscriber.t St Args) (st : St) :
  Subscriber.run sub st
  = dispatch sub (Zmq.incoming (Subscriber.socket sub)) st [].
Proof. unfold Subscriber.run. apply run_loop_dispatch. lia. Qed.

(** More fuel than [run] takes changes nothing. *)
Lemma run_loop_enough_fuel {St Args : Type} (fuel : nat)
    (sub : Subscriber.t St Args) (st : St) :
  (List.length (Zmq.incoming (Subscriber.socket sub)) < fuel)%nat ->
  Subscriber.run_loop fuel sub st [] = Subscriber.run sub st.
Proof.
  intros H. rewrite run_dispatch. now apply run_loop_dispatch.
Qed.

Lemma handed_run_single {St Args : Type} (sub : Subscriber.t St Args)
    (frame : string) (st : St) :
  handed (Subscriber.run (holding sub [frame]) st) = [payload sub frame].
Proof.
  rewrite run_dispatch. simpl. unfold payload; simpl.
  destruct (Subscriber.handler sub _ _ st); reflexivity.
Qed.

(** ** The transport's subscription test *)

Lemma distribute_holding (frames : list string) (sock : Zmq.socket) :
  Zmq.distribute frames sock
  = socket_holding sock
      (Zmq.incoming sock ++ filter (Zmq.accepts sock) frames)%list.
Proof.
  unfold Zmq.distribute.
  revert sock; induction frames as [|f later IH]; intros sock; simpl.
  - destruct sock; unfold socket_holding; simpl. now rewrite app_nil_r.
  - rewrite IH. unfold Zmq.deliver.
    destruct (Zmq.accepts sock f) eqn:E.
    + destruct sock; unfold socket_holding, Zmq.arrive, Zmq.accepts; simpl.
      now rewrite <- app_assoc.
    + reflexivity.
Qed.

Lemma receives_init {St Args : Type} (w : Zmq.world)
    (address port topic : string)
    (h : string -> Args -> St -> Subscriber.completion St) (kw : Args)
    (sub : Subscriber.t St Args) (frame : string) :
  Subscriber.init w address port topic h kw = Ok sub ->
  receives sub frame = String.prefix topic frame.
Proof.
  intros H. apply subscriber_init_inv in H as (_ & _ & _ & Hs & _).
  unfold receives, Zmq.accepts. rewrite Hs. simpl.
  unfold PyStr.startswith. apply orb_false_r.
Qed.

Lemma offered_init {St Args : Type} (w : Zmq.world)
    (address port topic : string)
    (h : string -> Args -> St -> Subscriber.completion St) (kw : Args)
    (sub : Subscriber.t St Args) (frames : list string) :
  Subscriber.init w address port topic h kw = Ok sub ->
  offered sub frames = holding sub (filter (String.prefix topic) frames).
Proof.
  intros H. pose proof (subscriber_init_inv _ _ _ _ _ _ _ H) as (_ & _ & _ & Hs & Hi).
  unfold offered, holding. rewrite distribute_holding, Hi. simpl.
  f_equal. f_equal. apply filter_ext. intros f.
  apply (receives_init _ _ _ _ _ _ _ f H).
Qed.

Lemma published_frame (w : Zmq.world) (address port topic message : string)
    (pub pub' : Publisher.t) :
  Publisher.init w address port topic = Ok pub ->
  Publisher.send pub message = Ok pub' ->
  wire pub' = [topic ++ "!" ++ message].
Proof.
  intros Hi Hs. apply publisher_init_inv in Hi as [Ht Hw].
  rewrite send_eq in Hs. injection Hs as <-.
  unfold wire in *; simpl. now rewrite Hw, Ht.
Qed.

Lemma payload_init {St Args : Type} (w : Zmq.world)
    (address port topic : string)
    (h : string -> Args -> St -> Subscriber.completion St) (kw : Args)
    (sub : Subscriber.t St Args) (frame : string) :
  Subscriber.init w address port topic h kw = Ok sub ->
  payload sub frame = PyStr.drop (String.length topic + 1) frame.
Proof.
  intros H. apply subscriber_init_inv in H as (_ & _ & Hm & _).
  unfold payload. rewrite Hm. apply slice_from_len_succ.
Qed.

Lemma drop_frame (topic message : string) :
  PyStr.drop (String.length topic + 1) (topic ++ "!" ++ message) = message.
Proof. rewrite <- drop_drop, drop_append_length. reflexivity. Qed.

Lemma is_prefix_refl (s : string) : is_prefix s s.
Proof. exists "". now rewrite append_empty_r. Qed.

Lemma is_prefix_append (p a b : string) : is_prefix p a -> is_prefix p (a ++ b).
Proof. intros [r ->]. exists (r ++ b). apply append_assoc. Qed.

(** A prefix of a concatenation lies within the first part or reaches
    beyond it. *)
Lemma is_prefix_split (p a b : string) :
  is_prefix p (a ++ b) -> is_prefix p a \/ is_prefix a p.
Proof.
  revert a; induction p as [|c p IH]; intros a [r H].
  - left. exists a. reflexivity.
  - destruct a as [|d a].
    + right. exists (String c p). reflexivity.
    + simpl in H. injection H as -> H.
      destruct (IH a) as [[q ->]|[q ->]].
      * exists r. exact H.
      * left. exists q. reflexivity.
      * right. exists q. reflexivity.
Qed.

Lemma offered_single {St Args : Type} (w : Zmq.world)
    (address port topic : string)
    (h : string -> Args -> St -> Subscriber.completion St) (kw : Args)
    (sub : Subscriber.t St Args) (frame : string) :
  Subscriber.init w address port topic h kw = Ok sub ->
  offered sub [frame]
  = holding sub (if receives sub frame then [frame] else []).
Proof.
  intros H. rewrite (offered_init _ _ _ _ _ _ _ _ H). simpl.
  rewrite <- (receives_init _ _ _ _ _ _ _ frame H).
  now destruct (receives sub frame).
Qed.

Lemma handed_run_nothing {St Args : Type} (sub : Subscriber.t St Args)
    (st : St) :
  Subscriber.run (holding sub []) st
  = Subscriber.Blocked (Subscriber.mk_progress (holding sub []) st []).
Proof. now rewrite run_dispatch. Qed.

(** ** The frame format *)

(** C5: [Publisher.send] puts exactly one more frame on the wire, the string
    made of the publisher's topic, the separator ["!"] and the message; the
    call does not fail and leaves the topic as it was. *)
Theorem send_puts_topic_sep_message (pub : Publisher.t) (message : string) :
  exists pub',
    Publisher.send pub message = Ok pub' /\
    Publisher.topic pub' = Publisher.topic pub /\
    wire pub' = List.app (wire pub) [Publisher.topic pub ++ "!" ++ message].
Proof.
  eexists. split; [apply send_eq|]. split; reflexivity.
Qed.

(** C1: round trip.  A publisher and a subscriber are made for the same
    topic, which holds no separator.  The frame the publisher sends for a
    message, once on the subscriber's socket, makes [Subscriber.run] call the
    handler with that message and nothing else. *)
Theorem roundtrip_send_run {St Args : Type} (w w' : Zmq.world)
    (address port address' port' topic message : string)
    (h : string -> Args -> St -> Subscriber.completion St) (kw : Args)
    (pub : Publisher.t) (sub : Subscriber.t St Args) (st : St) :
  contains separator topic = false ->
  Publisher.init w address port topic = Ok pub ->
  Subscriber.init w' address' port' topic h kw = Ok sub ->
  exists pub' frame,
    Publisher.send pub message = Ok pub' /\
    wire pub' = [frame] /\
    payload sub frame = message /\
    handed (Subscriber.run (holding sub [frame]) st) = [message].
Proof.
  intros _ Hp Hs.
  destruct (send_puts_frame_exists pub message) as [pub' Hsend].
  exists pub', (topic ++ "!" ++ message).
  assert (Hpay : payload sub (topic ++ "!" ++ message) = message).
  { rewrite (payload_init _ _ _ _ _ _ _ _ Hs). apply drop_frame. }
  repeat split.
  - exact Hsend.
  - exact (published_frame _ _ _ _ _ _ _ Hp Hsend).
  - exact Hpay.
  - rewrite handed_run_single. now rewrite Hpay.
Qed.

Lemma roundtrip_send_run_witness :
  exists pub' frame,
    Publisher.send weather_pub "22C" = Ok pub' /\
    wire pub' = [frame] /\
    payload weather_sub frame = "22C" /\
    handed (Subscriber.run (holding weather_sub [frame]) []) = ["22C"].
Proof.
  apply (roundtrip_send_run quiet quiet "localhost" "5559" "localhost" "5560"
           "weather" "22C" collect tt); reflexivity.
Defined.

(** C4: decoding goes by length alone.  For a subscriber made for a topic of
    [n] characters, the handler is called with the frame less its first
    [n + 1] characters, whatever the frame is: whatever stands in front,
    separator or not, goes, and what follows is the payload. *)
Theorem decode_strips_by_length {St Args : Type} (w : Zmq.world)
    (address port topic : string)
    (h : string -> Args -> St -> Subscriber.completion St) (kw : Args)
    (sub : Subscriber.t St Args) (frame : string) (st : St) :
  Subscriber.init w address port topic h kw = Ok sub ->
  handed (Subscriber.run (holding sub [frame]) st)
  = [PyStr.drop (String.length topic + 1) frame] /\
  (forall front rest : string,
      frame = front ++ rest ->
      String.length front = (String.length topic + 1)%nat ->
      handed (Subscriber.run (holding sub [frame]) st) = [rest]).
Proof.
  intros Hs. rewrite handed_run_single, (payload_init _ _ _ _ _ _ _ _ Hs).
  split; [reflexivity|].
  intros front rest -> <-. now rewrite drop_append_length.
Qed.

Lemma decode_strips_by_length_witness :
  handed (Subscriber.run (holding weather_sub ["no separator here"]) [])
  = ["ator here"] /\
  handed (Subscriber.run (holding weather_sub ["!!!!!!!!!!"]) []) = ["!!"].
Proof.
  split.
  - apply (decode_strips_by_length quiet "localhost" "5560" "weather" collect tt
             weather_sub "no separator here" [] eq_refl).
  - apply (proj2 (decode_strips_by_length quiet "localhost" "5560" "weather"
                    collect tt weather_sub "!!!!!!!!!!" [] eq_refl)
             "!!!!!!!!" "!!"); reflexivity.
Defined.

(** C9: a short frame is no error.  When the frame on the socket has at
    most [msg_start] characters, the slice is the empty string, the handler
    is called with it, and the loop goes on or ends as the handler decides:
    nothing but the handler can raise. *)
Theorem short_frame_gives_empty_payload {St Args : Type}
    (sub : Subscriber.t St Args) (frame : string) (st : St) :
  PyStr.len frame <= Subscriber.msg_start sub ->
  PyStr.slice_from (Subscriber.msg_start sub) frame = "" /\
  Subscriber.run (holding sub [frame]) st
  = match Subscriber.handler sub "" (Subscriber.args sub) st with
    | Subscriber.Returns st' =>
        Subscriber.Blocked (Subscriber.mk_progress (holding sub []) st' [""])
    | Subscriber.Raises e st' =>
        Subscriber.Crashed e (Subscriber.mk_progress (holding sub []) st' [""])
    end.
Proof.
  intros Hlen.
  assert (E : PyStr.slice_from (Subscriber.msg_start sub) frame = "").
  { unfold PyStr.slice_from, PyStr.len in *.
    destruct (Z.ltb_spec (Subscriber.msg_start sub) 0) as [H|H]; [lia|].
    rewrite Z.min_r by lia. rewrite Nat2Z.id. apply drop_all. lia. }
  split; [exact E|].
  rewrite run_dispatch. simpl. unfold payload; simpl. rewrite E.
  destruct (Subscriber.handler sub "" (Subscriber.args sub) st); reflexivity.
Qed.

Lemma short_frame_gives_empty_payload_witness :
  PyStr.slice_from 8 "weather" = "" /\
  Subscriber.run (holding weather_sub ["weather"]) []
  = Subscriber.Blocked
      (Subscriber.mk_progress (holding weather_sub []) [""] [""]).
Proof.
  apply (short_frame_gives_empty_payload weather_sub "weather" []).
  vm_compute. discriminate.
Defined.

(** ** The subscription filter *)

(** C2: the filter is a prefix test on the whole frame.  A subscriber made
    with filter [topic] lets in a frame that a publisher with topic [topic']
    sent exactly when [topic] is a prefix of the frame.  So it lets the frame
    in when the two topics are equal, and also when [topic'] only starts
    with [topic]. *)
Theorem filter_is_prefix_of_frame {St Args : Type} (w w' : Zmq.world)
    (address port address' port' topic topic' message : string)
    (h : string -> Args -> St -> Subscriber.completion St) (kw : Args)
    (sub : Subscriber.t St Args) (pub pub' : Publisher.t) (frame : string) :
  Subscriber.init w address port topic h kw = Ok sub ->
  Publisher.init w' address' port' topic' = Ok pub ->
  Publisher.send pub message = Ok pub' ->
  In frame (wire pub') ->
  (receives sub frame = true <-> is_prefix topic frame) /\
  (In frame (Zmq.incoming (Subscriber.socket (offered sub (wire pub'))))
   <-> is_prefix topic frame) /\
  (topic' = topic -> receives sub frame = true) /\
  (is_prefix topic topic' -> receives sub frame = true).
Proof.
  intros Hs Hp Hsend Hin.
  rewrite (published_frame _ _ _ _ _ _ _ Hp Hsend) in *.
  destruct Hin as [<-|[]].
  assert (R : receives sub (topic' ++ "!" ++ message) = true
              <-> is_prefix topic (topic' ++ "!" ++ message)).
  { rewrite (receives_init _ _ _ _ _ _ _ _ Hs). apply prefix_true_iff. }
  split; [exact R|]. split; [|split].
  - rewrite (offered_single _ _ _ _ _ _ _ _ Hs). simpl.
    destruct (receives sub _); simpl.
    + split; [intros _; now apply R | intros _; now left].
    + split; [intros [] | intros H; apply R in H; discriminate].
  - intros ->. apply R, is_prefix_append, is_prefix_refl.
  - intros H. now apply R, is_prefix_append.
Qed.

Lemma filter_is_prefix_of_frame_witness :
  (receives weather_sub "weatherman!hello" = true
   <-> is_prefix "weather" "weatherman!hello") /\
  (In "weatherman!hello"
      (Zmq.incoming (Subscriber.socket (offered weather_sub ["weatherman!hello"])))
   <-> is_prefix "weather" "weatherman!hello") /\
  ("weatherman" = "weather" -> receives weather_sub "weatherman!hello" = true) /\
  (is_prefix "weather" "weatherman"
   -> receives weather_sub "weatherman!hello" = true).
Proof.
  apply (filter_is_prefix_of_frame quiet quiet "localhost" "5560" "localhost"
           "5559" "weather" "weatherman" "hello" collect tt weather_sub
           weatherman_pub
           (Publisher.mk "weatherman"
              (Zmq.send_string (Publisher.socket weatherman_pub)
                 "weatherman!hello"))
           "weatherman!hello");
    [reflexivity | reflexivity | reflexivity | left; reflexivity].
Defined.

(** C3: isolation.  When neither of two separator-free topics is a prefix
    of the other, a subscriber made with the one as its filter lets in no
    frame that a publisher with the other sends, whatever the message; its
    handler is never called for such a frame. *)
Theorem disjoint_topics_isolated {St Args : Type} (w w' : Zmq.world)
    (address port address' port' topic1 topic2 message : string)
    (h : string -> Args -> St -> Subscriber.completion St) (kw : Args)
    (sub : Subscriber.t St Args) (pub pub' : Publisher.t) (st : St) :
  contains separator topic1 = false ->
  contains separator topic2 = false ->
  ~ is_prefix topic1 topic2 ->
  ~ is_prefix topic2 topic1 ->
  Subscriber.init w address port topic1 h kw = Ok sub ->
  Publisher.init w' address' port' topic2 = Ok pub ->
  Publisher.send pub message = Ok pub' ->
  (forall frame, In frame (wire pub') -> receives sub frame = false) /\
  Zmq.incoming (Subscriber.socket (offered sub (wire pub'))) = [] /\
  handed (Subscriber.run (offered sub (wire pub')) st) = [].
Proof.
  intros _ _ H12 H21 Hs Hp Hsend.
  rewrite (published_frame _ _ _ _ _ _ _ Hp Hsend).
  assert (R : receives sub (topic2 ++ "!" ++ message) = false).
  { destruct (receives sub _) eqn:E; [|reflexivity].
    rewrite (receives_init _ _ _ _ _ _ _ _ Hs) in E.
    apply prefix_true_iff, is_prefix_split in E. tauto. }
  split; [|split].
  - intros frame [<-|[]]. exact R.
  - rewrite (offered_single _ _ _ _ _ _ _ _ Hs), R. reflexivity.
  - rewrite (offered_single _ _ _ _ _ _ _ _ Hs), R, handed_run_nothing.
    reflexivity.
Qed.

Lemma disjoint_topics_isolated_witness :
  (forall frame, In frame ["traffic!jam"] -> receives weather_sub frame = false) /\
  Zmq.incoming (Subscriber.socket (offered weather_sub ["traffic!jam"])) = [] /\
  handed (Subscriber.run (offered weather_sub ["traffic!jam"]) []) = [].
Proof.
  apply (disjoint_topics_isolated quiet quiet "localhost" "5560" "localhost"
           "5559" "weather" "traffic" "jam" collect tt weather_sub traffic_pub
           (Publisher.mk "traffic"
              (Zmq.send_string (Publisher.socket traffic_pub) "traffic!jam"))
           []);
    try reflexivity;
    intros H; apply prefix_true_iff in H; discriminate.
Defined.

Lemma drop_overmatched (topic more message : string) :
  more <> "" ->
  PyStr.drop (String.length topic + 1) ((topic ++ more) ++ "!" ++ message)
  = tail more ++ "!" ++ message.
Proof.
  intros Hne. rewrite append_assoc, <- drop_drop, drop_append_length.
  destruct more as [|c more]; [congruence | reflexivity].
Qed.

(** C10: an over-matched frame is decoded wrongly.  The subscriber's topic
    is a proper prefix of the publisher's.  The frame passes the filter, and
    the handler is called with the frame less its first [len(topic) + 1]
    characters: the publisher's topic from the second character after the
    subscriber's, then the separator, then the message.  That string is
    never the message. *)
Theorem overmatched_frame_payload {St Args : Type} (w w' : Zmq.world)
    (address port address' port' topic topic' message : string)
    (h : string -> Args -> St -> Subscriber.completion St) (kw : Args)
    (sub : Subscriber.t St Args) (pub pub' : Publisher.t) (st : St) :
  is_prefix topic topic' ->
  topic <> topic' ->
  Subscriber.init w address port topic h kw = Ok sub ->
  Publisher.init w' address' port' topic' = Ok pub ->
  Publisher.send pub message = Ok pub' ->
  let got := PyStr.drop (String.length topic + 1) (topic' ++ "!" ++ message) in
  handed (Subscriber.run (offered sub (wire pub')) st) = [got] /\
  got = tail (PyStr.drop (String.length topic) topic') ++ "!" ++ message /\
  got <> message.
Proof.
  intros [more ->] Hne Hs Hp Hsend got.
  assert (Hmore : more <> "").
  { intros ->. apply Hne. now rewrite append_empty_r. }
  assert (Hgot : got = tail more ++ "!" ++ message)
    by (apply drop_overmatched; exact Hmore).
  rewrite (published_frame _ _ _ _ _ _ _ Hp Hsend).
  split; [|split].
  - rewrite (offered_single _ _ _ _ _ _ _ _ Hs).
    assert (R : receives sub ((topic ++ more) ++ "!" ++ message) = true).
    { rewrite (receives_init _ _ _ _ _ _ _ _ Hs). apply prefix_true_iff.
      rewrite append_assoc. eexists; reflexivity. }
    rewrite R, handed_run_single, (payload_init _ _ _ _ _ _ _ _ Hs).
    reflexivity.
  - rewrite Hgot, drop_append_length. reflexivity.
  - rewrite Hgot. intros E. apply (f_equal String.length) in E.
    rewrite length_append in E. unfold tail in E. rewrite length_drop in E.
    destruct more as [|c more]; [congruence|]. simpl in E. lia.
Qed.

Lemma overmatched_frame_payload_witness :
  handed (Subscriber.run (offered weather_sub ["weatherman!hello"]) [])
  = ["an!hello"] /\
  "an!hello" = tail "man" ++ "!" ++ "hello" /\
  "an!hello" <> "hello".
Proof.
  apply (overmatched_frame_payload quiet quiet "localhost" "5560" "localhost"
           "5559" "weather" "weatherman" "hello" collect tt weather_sub
           weatherman_pub
           (Publisher.mk "weatherman"
              (Zmq.send_string (Publisher.socket weatherman_pub)
                 "weatherman!hello"))
           []);
    [exists "man"; reflexivity | discriminate | reflexivity | reflexivity
    | reflexivity].
Defined.

(** ** Handler faults and the life of the loop *)

Lemma dispatch_app {St Args : Type} (sub : Subscriber.t St Args)
    (pre rest : list string) (st : St) (calls : list string) :
  dispatch sub (pre ++ rest) st calls
  = match dispatch sub pre st calls with
    | Subscriber.Blocked p =>
        dispatch sub rest (Subscriber.state p) (Subscriber.calls p)
    | Subscriber.Crashed e p =>
        Subscriber.Crashed e
          (Subscriber.mk_progress
             (holding sub
                (Zmq.incoming (Subscriber.socket (Subscriber.subscriber p))
                 ++ rest))
             (Subscriber.state p) (Subscriber.calls p))
    | Subscriber.Unfinished p => Subscriber.Unfinished p
    end.
Proof.
  revert st calls; induction pre as [|f later IH]; intros st calls; simpl.
  - reflexivity.
  - destruct (Subscriber.handler sub _ _ st) as [st'|e st'];
      [apply IH | reflexivity].
Qed.

Lemma dispatch_never_unfinished {St Args : Type} (sub : Subscriber.t St Args)
    (frames : list string) (st : St) (calls : list string)
    (p : Subscriber.progress St Args) :
  dispatch sub frames st calls <> Subscriber.Unfinished p.
Proof.
  revert st calls; induction frames as [|f later IH]; intros st calls; simpl.
  - discriminate.
  - destruct (Subscriber.handler sub _ _ st) as [st'|e st'];
      [apply IH | discriminate].
Qed.

Lemma dispatch_total_handler {St Args : Type} (sub : Subscriber.t St Args)
    (frames : list string) (st : St) (calls : list string) :
  (forall msg s, exists s',
      Subscriber.handler sub msg (Subscriber.args sub) s = Subscriber.Returns s') ->
  exists s',
    dispatch sub frames st calls
    = Subscriber.Blocked
        (Subscriber.mk_progress (holding sub []) s'
           (calls ++ map (payload sub) frames)%list).
Proof.
  intros Hh. revert st calls; induction frames as [|f later IH];
    intros st calls; simpl.
  - exists st. now rewrite app_nil_r.
  - destruct (Hh (payload sub f) st) as [s' ->].
    destruct (IH s' (calls ++ [payload sub f])%list) as [s'' ->].
    exists s''. now rewrite <- app_assoc.
Qed.

Lemma run_holding {St Args : Type} (sub : Subscriber.t St Args)
    (frames : list string) (st : St) :
  Subscriber.run (holding sub frames) st = dispatch sub frames st [].
Proof. rewrite run_dispatch. apply dispatch_holding. Qed.

Lemma dispatch_returns_through {St Args : Type} (sub : Subscriber.t St Args)
    (frames : list string) (st st' : St) (calls : list string) :
  returns_through sub frames st = Some st' ->
  dispatch sub frames st calls
  = Subscriber.Blocked
      (Subscriber.mk_progress (holding sub []) st'
         (calls ++ map (payload sub) frames)%list).
Proof.
  revert st calls; induction frames as [|f later IH]; intros st calls; simpl.
  - intros H; injection H as <-. now rewrite app_nil_r.
  - destruct (Subscriber.handler sub _ _ st) as [s1|e s1]; [|discriminate].
    intros H. rewrite (IH _ _ H), <- app_assoc. reflexivity.
Qed.

(** The handler returns for all the frames, or there is a first frame on
    which it raises. *)
Lemma returns_or_raises {St Args : Type} (sub : Subscriber.t St Args)
    (frames : list string) (st : St) :
  (exists st', returns_through sub frames st = Some st') \/
  (exists pre f post st_k e st',
      frames = (pre ++ f :: post)%list /\
      returns_through sub pre st = Some st_k /\
      Subscriber.handler sub (payload sub f) (Subscriber.args sub) st_k
      = Subscriber.Raises e st').
Proof.
  revert st; induction frames as [|f later IH]; intros st.
  - left. exists st. reflexivity.
  - destruct (Subscriber.handler sub (payload sub f) (Subscriber.args sub) st)
      as [s1|e s1] eqn:E.
    + destruct (IH s1) as [[st' H]|(pre & g & post & sk & e & st' & -> & H1 & H2)].
      * left. exists st'. simpl. now rewrite E.
      * right. exists (f :: pre), g, post, sk, e, st'.
        split; [reflexivity|]. split; [simpl; now rewrite E | exact H2].
    + right. exists [], f, later, st, e, s1. repeat split. exact E.
Qed.

(** C7: handler exceptions are not caught.  Let the frames on the socket be
    [pre], then [f], then [post].  If the handler returns for the frames of
    [pre], each call starting from the state the one before left, and raises
    on [f], the loop ends with that exception: the handler was called for
    [pre] and [f], once each and in order, and [post] stays unread.  If the
    handler returns for all the frames received, the loop has called it once
    per frame, in order of arrival, each call made when the one before had
    returned, and waits for the next frame; it does not end.  One of the two
    is always the case, and the loop ends in no other way than by the
    handler's exception. *)
Theorem handler_fault_ends_loop {St Args : Type} (sub : Subscriber.t St Args)
    (frames : list string) (st : St) :
  (forall (pre : list string) (f : string) (post : list string)
          (st_k : St) (e : exn) (st' : St),
      frames = (pre ++ f :: post)%list ->
      returns_through sub pre st = Some st_k ->
      Subscriber.handler sub (payload sub f) (Subscriber.args sub) st_k
      = Subscriber.Raises e st' ->
      Subscriber.run (holding sub frames) st
      = Subscriber.Crashed e
          (Subscriber.mk_progress (holding sub post) st'
             (map (payload sub) (pre ++ [f])%list))) /\
  (forall st' : St,
      returns_through sub frames st = Some st' ->
      Subscriber.run (holding sub frames) st
      = Subscriber.Blocked
          (Subscriber.mk_progress (holding sub []) st'
             (map (payload sub) frames))) /\
  ((exists st', returns_through sub frames st = Some st') \/
   (exists pre f post st_k e st',
       frames = (pre ++ f :: post)%list /\
       returns_through sub pre st = Some st_k /\
       Subscriber.handler sub (payload sub f) (Subscriber.args sub) st_k
       = Subscriber.Raises e st')) /\
  (forall p, Subscriber.run (holding sub frames) st <> Subscriber.Unfinished p).
Proof.
  split; [|split; [|split]].
  - intros pre f post st_k e st' -> Hpre Hf.
    rewrite run_holding, dispatch_app.
    rewrite (dispatch_returns_through sub pre st st_k [] Hpre).
    simpl. rewrite Hf, map_app. reflexivity.
  - intros st' H. rewrite run_holding.
    apply (dispatch_returns_through sub frames st st' [] H).
  - apply returns_or_raises.
  - intros p. rewrite run_holding. apply dispatch_never_unfinished.
Qed.

Lemma handler_fault_ends_loop_witness :
  Subscriber.run
    (holding picky_sub ["weather!22C"; "weather!storm"; "weather!23C"]) []
  = Subscriber.Crashed (Exception "storm")
      (Subscriber.mk_progress (holding picky_sub ["weather!23C"]) ["22C"]
         ["22C"; "storm"]) /\
  Subscriber.run (holding picky_sub ["weather!22C"; "weather!23C"]) []
  = Subscriber.Blocked
      (Subscriber.mk_progress (holding picky_sub []) ["22C"; "23C"]
         ["22C"; "23C"]).
Proof.
  split.
  - apply (proj1 (handler_fault_ends_loop picky_sub
                    ["weather!22C"; "weather!storm"; "weather!23C"] [])
             ["weather!22C"] "weather!storm" ["weather!23C"] ["22C"]);
      reflexivity.
  - apply (proj1 (proj2 (handler_fault_ends_loop picky_sub
                           ["weather!22C"; "weather!23C"] []))).
    reflexivity.
Defined.

(** ** The broker *)

Lemma arrive_all (frames : list string) (sock : Zmq.socket) :
  fold_left Zmq.arrive frames sock
  = socket_holding sock (Zmq.incoming sock ++ frames).
Proof.
  revert sock; induction frames as [|f later IH]; intros sock; simpl.
  - destruct sock; unfold socket_holding; simpl. now rewrite app_nil_r.
  - rewrite IH. destruct sock; unfold socket_holding, Zmq.arrive; simpl.
    now rewrite <- app_assoc.
Qed.

Lemma proxy_loop_drains (waiting : list string) (fuel : nat)
    (frontend backend : Zmq.socket) :
  Zmq.incoming frontend = waiting ->
  (List.length waiting <= fuel)%nat ->
  Zmq.proxy_loop fuel frontend backend
  = (socket_holding frontend [], socket_sending backend waiting).
Proof.
  revert fuel frontend backend; induction waiting as [|f later IH];
    intros fuel frontend backend Hw Hf.
  - destruct frontend, backend; simpl in Hw; subst.
    unfold socket_holding, socket_sending; simpl. rewrite app_nil_r.
    destruct fuel; reflexivity.
  - destruct fuel as [|fuel]; [simpl in Hf; lia|].
    simpl. unfold Zmq.proxy_turn, Zmq.recv_string. rewrite Hw.
    rewrite (IH fuel); [| reflexivity | simpl in Hf; lia].
    destruct frontend, backend; unfold socket_holding, socket_sending,
      Zmq.send_string; simpl. now rewrite <- app_assoc.
Qed.

Lemma proxy_relays (frontend backend : Zmq.socket) :
  Zmq.proxy frontend backend
  = (socket_holding frontend [],
     socket_sending backend (Zmq.incoming frontend)).
Proof. unfold Zmq.proxy. now apply proxy_loop_drains. Qed.

Lemma broker_run_eq (self : MessageBroker.t) (w : Zmq.world)
    (arrivals : list string) :
  MessageBroker.run self w arrivals
  = match Zmq.bind w (Zmq.new_socket Zmq.XSUB)
            (bind_endpoint (MessageBroker.port_in self)) with
    | Raise e => Raise e
    | Ok (w1, frontend) =>
        match Zmq.bind w1 (Zmq.new_socket Zmq.XPUB)
                (bind_endpoint (MessageBroker.port_out self)) with
        | Raise e => Raise e
        | Ok (w2, backend) =>
            Ok (w2, (socket_holding frontend [],
                     socket_sending backend
                       (Zmq.incoming frontend ++ arrivals)))
        end
    end.
Proof.
  unfold MessageBroker.run. rewrite !format_bind_eq. unfold bind at 1.
  unfold bind_endpoint.
  destruct (Zmq.bind w _ _) as [[w1 frontend]|e]; [|reflexivity].
  unfold bind at 1. unfold bind at 1.
  destruct (Zmq.bind w1 _ _) as [[w2 backend]|e]; [|reflexivity].
  simpl. rewrite proxy_relays, arrive_all.
  destruct frontend; reflexivity.
Qed.

Lemma bind_ok_inv (w w' : Zmq.world) (sock sock' : Zmq.socket)
    (endpoint : string) :
  Zmq.bind w sock endpoint = Ok (w', sock') ->
  Zmq.held w' = endpoint :: Zmq.held w /\
  Zmq.bound sock' = endpoint :: Zmq.bound sock /\
  Zmq.outgoing sock' = Zmq.outgoing sock /\
  Zmq.incoming sock' = Zmq.incoming sock.
Proof.
  unfold Zmq.bind.
  destruct (Zmq.bind_errno w _ endpoint); [discriminate|].
  intros H; injection H as <- <-. repeat split.
Qed.

Lemma broker_run_ok_inv (self : MessageBroker.t) (w w' : Zmq.world)
    (arrivals : list string) (frontend backend : Zmq.socket) :
  MessageBroker.run self w arrivals = Ok (w', (frontend, backend)) ->
  Zmq.outgoing backend = arrivals /\ Zmq.incoming frontend = [] /\
  Zmq.bound frontend = [bind_endpoint (MessageBroker.port_in self)] /\
  Zmq.bound backend = [bind_endpoint (MessageBroker.port_out self)] /\
  Zmq.held w'
  = bind_endpoint (MessageBroker.port_out self)
    :: bind_endpoint (MessageBroker.port_in self) :: Zmq.held w.
Proof.
  rewrite broker_run_eq.
  destruct (Zmq.bind w _ _) as [[w1 f]|e] eqn:E1; [|discriminate].
  destruct (Zmq.bind w1 _ _) as [[w2 b]|e] eqn:E2; [|discriminate].
  intros H; injection H as <- <- <-.
  apply bind_ok_inv in E1 as (Hu1 & Hb1 & _ & Hf).
  apply bind_ok_inv in E2 as (Hu2 & Hb2 & Hb & _).
  simpl in *. rewrite Hf, Hb, Hb1, Hb2, Hu2, Hu1. repeat split.
Qed.

(** C6: the broker relays verbatim.  Whenever [MessageBroker.run] gets to
    proxy, the frames it sends on the backend are the frames that reached
    the frontend: the same strings, each once, in the same order, whatever
    they hold; none is left waiting on the frontend. *)
Theorem broker_relays_verbatim (self : MessageBroker.t) (w w' : Zmq.world)
    (arrivals : list string) (frontend backend : Zmq.socket) :
  MessageBroker.run self w arrivals = Ok (w', (frontend, backend)) ->
  Zmq.outgoing backend = arrivals /\ Zmq.incoming frontend = [].
Proof.
  intros H. apply broker_run_ok_inv in H as (Ho & Hi & _). now split.
Qed.

Lemma broker_relays_verbatim_witness :
  exists w' frontend backend,
    MessageBroker.run (MessageBroker.init "5559" "5560") quiet
      ["weather!22C"; "no separator"; "!"; "weather!22C"]
    = Ok (w', (frontend, backend)) /\
    Zmq.outgoing backend = ["weather!22C"; "no separator"; "!"; "weather!22C"] /\
    Zmq.incoming frontend = [].
Proof.
  do 3 eexists. split; [reflexivity|].
  apply (broker_relays_verbatim (MessageBroker.init "5559" "5560") quiet
           (Zmq.mk_world (Zmq.bind_errno quiet) (Zmq.connect_errno quiet)
              ["tcp://*:5560"; "tcp://*:5559"])
           ["weather!22C"; "no separator"; "!"; "weather!22C"]).
  reflexivity.
Defined.

(** C8, as the code has it: a bind failure ends the broker's thread and
    does not reach the caller.  The constructor binds nothing.  [start]
    returns to its caller normally, whatever the binds do.  In the thread,
    if the frontend's endpoint cannot be bound, or the frontend's can and
    the backend's cannot, the [ZMQError] of the failed bind leaves [run]
    uncaught, and no frame is relayed; [run] gets to proxy only with both
    endpoints bound. *)
Theorem bind_failure_ends_broker_thread (self : MessageBroker.t)
    (w : Zmq.world) (arrivals : list string) :
  MessageBroker.to_caller (MessageBroker.start self w arrivals) = Ok tt /\
  (forall e,
      Zmq.bind w (Zmq.new_socket Zmq.XSUB)
        (bind_endpoint (MessageBroker.port_in self)) = Raise e ->
      MessageBroker.run self w arrivals = Raise e /\
      MessageBroker.in_thread (MessageBroker.start self w arrivals) = Raise e) /\
  (forall w1 frontend e,
      Zmq.bind w (Zmq.new_socket Zmq.XSUB)
        (bind_endpoint (MessageBroker.port_in self)) = Ok (w1, frontend) ->
      Zmq.bind w1 (Zmq.new_socket Zmq.XPUB)
        (bind_endpoint (MessageBroker.port_out self)) = Raise e ->
      MessageBroker.run self w arrivals = Raise e /\
      MessageBroker.in_thread (MessageBroker.start self w arrivals) = Raise e) /\
  (forall w' frontend backend,
      MessageBroker.run self w arrivals = Ok (w', (frontend, backend)) ->
      Zmq.bound frontend = [bind_endpoint (MessageBroker.port_in self)] /\
      Zmq.bound backend = [bind_endpoint (MessageBroker.port_out self)]).
Proof.
  split; [reflexivity|]. unfold MessageBroker.start; simpl.
  split; [|split].
  - intros e H. rewrite broker_run_eq, H. now split.
  - intros w1 frontend e H1 H2. rewrite broker_run_eq, H1, H2. now split.
  - intros w' frontend backend H.
    apply broker_run_ok_inv in H as (_ & _ & H1 & H2 & _). now split.
Qed.

Lemma bind_failure_ends_broker_thread_witness :
  MessageBroker.in_thread
    (MessageBroker.start (MessageBroker.init "5559" "5560") busy ["weather!22C"])
  = Raise (ZMQError Zmq.EADDRINUSE) /\
  MessageBroker.in_thread
    (MessageBroker.start (MessageBroker.init "5560" "5559") busy ["weather!22C"])
  = Raise (ZMQError Zmq.EADDRINUSE).
Proof.
  split.
  - apply (proj1 (proj2 (bind_failure_ends_broker_thread
                           (MessageBroker.init "5559" "5560") busy
                           ["weather!22C"]))).
    reflexivity.
  - apply (proj1 (proj2 (proj2 (bind_failure_ends_broker_thread
                                  (MessageBroker.init "5560" "5559") busy
                                  ["weather!22C"])))
             (Zmq.mk_world (Zmq.bind_errno busy) (Zmq.connect_errno busy)
                ["tcp://*:5560"])
             (Zmq.mk_socket Zmq.XSUB ["tcp://*:5560"] [] [] [] []));
      reflexivity.
Defined.

(** C8 with "raised to the caller" fails: with the frontend's port held by
    someone else, the bind fails and the thread dies of the [ZMQError],
    while the caller of [start] gets a normal return and no exception. *)
Lemma bind_failure_not_raised_to_caller :
  Zmq.bind busy (Zmq.new_socket Zmq.XSUB) (bind_endpoint "5559")
  = Raise (ZMQError Zmq.EADDRINUSE) /\
  MessageBroker.in_thread
    (MessageBroker.start (MessageBroker.init "5559" "5560") busy [])
  = Raise (ZMQError Zmq.EADDRINUSE) /\
  MessageBroker.to_caller
    (MessageBroker.start (MessageBroker.init "5559" "5560") busy [])
  = Ok tt /\
  MessageBroker.to_caller
    (MessageBroker.start (MessageBroker.init "5559" "5560") busy [])
  <> Raise (ZMQError Zmq.EADDRINUSE).
Proof. repeat split. discriminate. Qed.

(** ** More about publishing *)

Lemma send_all_eq (messages : list string) (pub : Publisher.t) :
  send_all pub messages
  = Ok (Publisher.mk (Publisher.topic pub)
          (socket_sending (Publisher.socket pub)
             (map (frame_of (Publisher.topic pub)) messages))).
Proof.
  revert pub; induction messages as [|m later IH]; intros pub.
  - destruct pub as [t sock]; destruct sock; unfold socket_sending; simpl.
    now rewrite app_nil_r.
  - cbn [send_all]. rewrite send_eq. unfold bind. rewrite IH. simpl.
    destruct pub as [t sock]; destruct sock;
      unfold socket_sending, Zmq.send_string, frame_of; simpl.
    now rewrite <- app_assoc.
Qed.

(** Any number of sends succeeds; the new frames follow the old ones on the
    wire, one per message and in the order of the calls, and the topic stays
    what it was. *)
Theorem send_all_appends_frames (pub : Publisher.t) (messages : list string) :
  exists pub',
    send_all pub messages = Ok pub' /\
    Publisher.topic pub' = Publisher.topic pub /\
    wire pub'
    = List.app (wire pub) (map (frame_of (Publisher.topic pub)) messages).
Proof.
  eexists. split; [apply send_all_eq|]. split; reflexivity.
Qed.

Lemma frame_of_inj (topic1 topic2 message1 message2 : string) :
  contains separator topic1 = false ->
  contains separator topic2 = false ->
  frame_of topic1 message1 = frame_of topic2 message2 ->
  topic1 = topic2 /\ message1 = message2.
Proof.
  unfold frame_of, separator.
  revert topic2; induction topic1 as [|c t1 IH]; intros [|d t2] H1 H2 E;
    simpl in *.
  - injection E as ->. now split.
  - injection E as <- _. simpl in H2. discriminate.
  - injection E as -> _. simpl in H1. discriminate.
  - injection E as -> E.
    apply orb_false_elim in H1 as [_ H1]. apply orb_false_elim in H2 as [_ H2].
    destruct (IH t2 H1 H2 E) as [-> ->]. now split.
Qed.

(** With separator-free topics a frame has one reading: two publishers that
    put the same frame on the wire have the same topic and sent the same
    message. *)
Theorem frame_determines_topic_and_message (w1 w2 : Zmq.world)
    (address1 port1 address2 port2 topic1 topic2 message1 message2 : string)
    (pub1 pub1' pub2 pub2' : Publisher.t) :
  contains separator topic1 = false ->
  contains separator topic2 = false ->
  Publisher.init w1 address1 port1 topic1 = Ok pub1 ->
  Publisher.init w2 address2 port2 topic2 = Ok pub2 ->
  Publisher.send pub1 message1 = Ok pub1' ->
  Publisher.send pub2 message2 = Ok pub2' ->
  wire pub1' = wire pub2' ->
  topic1 = topic2 /\ message1 = message2.
Proof.
  intros H1 H2 Hp1 Hp2 Hs1 Hs2.
  rewrite (published_frame _ _ _ _ _ _ _ Hp1 Hs1).
  rewrite (published_frame _ _ _ _ _ _ _ Hp2 Hs2).
  intros E; injection E as E. now apply frame_of_inj.
Qed.

Lemma frame_determines_topic_and_message_witness :
  "weather" = "weather" /\ "22C" = "22C".
Proof.
  apply (frame_determines_topic_and_message quiet quiet "localhost" "5559"
           "10.0.0.7" "5559" "weather" "weather" "22C" "22C"
           weather_pub
           (Publisher.mk "weather"
              (Zmq.send_string (Publisher.socket weather_pub) "weather!22C"))
           (Publisher.mk "weather"
              (Zmq.mk_socket Zmq.PUB [] ["tcp://10.0.0.7:5559"] [] [] []))
           (Publisher.mk "weather"
              (Zmq.mk_socket Zmq.PUB [] ["tcp://10.0.0.7:5559"] []
                 ["weather!22C"] [])));
    reflexivity.
Defined.

(** A topic that holds the separator makes frames ambiguous: publishers
    with different topics can put the same frame on the wire. *)
Theorem separator_in_topic_is_ambiguous :
  exists pub1 pub2 pub1' pub2',
    Publisher.init quiet "localhost" "5559" "a" = Ok pub1 /\
    Publisher.init quiet "localhost" "5559" "a!b" = Ok pub2 /\
    Publisher.send pub1 "b!c" = Ok pub1' /\
    Publisher.send pub2 "c" = Ok pub2' /\
    wire pub1' = wire pub2'.
Proof. do 4 eexists. repeat split. Qed.

(** ** More about receiving *)

(** The round trip needs no separator-free topic, and the filter is in no
    one's way: whatever the common topic of publisher and subscriber, the
    sent frame passes the subscriber's filter and the handler is called with
    the message, which may hold separators too. *)
Theorem same_topic_delivers_message {St Args : Type} (w w' : Zmq.world)
    (address port address' port' topic message : string)
    (h : string -> Args -> St -> Subscriber.completion St) (kw : Args)
    (pub pub' : Publisher.t) (sub : Subscriber.t St Args) (st : St) :
  Publisher.init w address port topic = Ok pub ->
  Subscriber.init w' address' port' topic h kw = Ok sub ->
  Publisher.send pub message = Ok pub' ->
  Zmq.incoming (Subscriber.socket (offered sub (wire pub'))) = wire pub' /\
  handed (Subscriber.run (offered sub (wire pub')) st) = [message].
Proof.
  intros Hp Hs Hsend. rewrite (published_frame _ _ _ _ _ _ _ Hp Hsend).
  rewrite (offered_single _ _ _ _ _ _ _ _ Hs).
  assert (R : receives sub (topic ++ "!" ++ message) = true).
  { rewrite (receives_init _ _ _ _ _ _ _ _ Hs). apply prefix_true_iff.
    eexists; reflexivity. }
  rewrite R. split; [reflexivity|].
  rewrite handed_run_single, (payload_init _ _ _ _ _ _ _ _ Hs).
  now rewrite drop_frame.
Qed.

Lemma same_topic_delivers_message_witness :
  Zmq.incoming (Subscriber.socket (offered weather_sub ["weather!a!b"]))
  = ["weather!a!b"] /\
  handed (Subscriber.run (offered weather_sub ["weather!a!b"]) []) = ["a!b"].
Proof.
  apply (same_topic_delivers_message quiet quiet "localhost" "5559"
           "localhost" "5560" "weather" "a!b" collect tt weather_pub
           (Publisher.mk "weather"
              (Zmq.send_string (Publisher.socket weather_pub) "weather!a!b"))
           weather_sub []);
    reflexivity.
Defined.

(** The payload is the frame shortened by the topic and one character, and
    is empty when the frame is no longer than that; so the handler never
    sees a character of the frame's first [len(topic) + 1]. *)
Theorem payload_length {St Args : Type} (w : Zmq.world)
    (address port topic : string)
    (h : string -> Args -> St -> Subscriber.completion St) (kw : Args)
    (sub : Subscriber.t St Args) (frame : string) :
  Subscriber.init w address port topic h kw = Ok sub ->
  1 <= Subscriber.msg_start sub /\
  PyStr.len (payload sub frame)
  = Z.max 0 (PyStr.len frame - Subscriber.msg_start sub) /\
  frame = PyStr.take (String.length topic + 1) frame ++ payload sub frame.
Proof.
  intros Hs. rewrite (payload_init _ _ _ _ _ _ _ _ Hs).
  apply subscriber_init_inv in Hs as (_ & _ & -> & _).
  unfold PyStr.len. rewrite length_drop, take_drop.
  repeat split; lia.
Qed.

Lemma payload_length_witness :
  1 <= Subscriber.msg_start weather_sub /\
  PyStr.len (payload weather_sub "weather!22C")
  = Z.max 0 (PyStr.len "weather!22C" - Subscriber.msg_start weather_sub) /\
  "weather!22C" = PyStr.take (7 + 1) "weather!22C"
                  ++ payload weather_sub "weather!22C".
Proof.
  apply (payload_length quiet "localhost" "5560" "weather" collect tt
           weather_sub "weather!22C").
  reflexivity.
Defined.

Lemma dispatch_accounts {St Args : Type} (sub : Subscriber.t St Args)
    (frames : list string) (st : St) (calls : list string) :
  exists consumed,
    frames = (consumed ++ unread (dispatch sub frames st calls))%list /\
    handed (dispatch sub frames st calls)
    = (calls ++ map (payload sub) consumed)%list /\
    Subscriber.subscriber (progress_of (dispatch sub frames st calls))
    = holding sub (unread (dispatch sub frames st calls)).
Proof.
  revert st calls; induction frames as [|f later IH]; intros st calls; simpl.
  - exists []. unfold unread, handed; simpl. now rewrite app_nil_r.
  - destruct (Subscriber.handler sub _ _ st) as [st'|e st'].
    + destruct (IH st' (calls ++ [payload sub f])%list) as (c & H1 & H2 & H3).
      exists (f :: c). split; [simpl; now rewrite <- H1|].
      split; [|exact H3]. rewrite H2, <- app_assoc. reflexivity.
    + exists [f]. unfold unread, handed; simpl. repeat split.
Qed.

(** However the loop ends up, its books balance: the frames that were on
    the socket are those it consumed followed by those still unread, the
    handler was called once for each consumed frame, in order, with that
    frame's payload, and nothing else about the subscriber has changed. *)
Theorem run_accounts_for_every_frame {St Args : Type}
    (sub : Subscriber.t St Args) (frames : list string) (st : St) :
  exists consumed,
    frames
    = (consumed ++ unread (Subscriber.run (holding sub frames) st))%list /\
    handed (Subscriber.run (holding sub frames) st)
    = map (payload sub) consumed /\
    Subscriber.subscriber (progress_of (Subscriber.run (holding sub frames) st))
    = holding sub (unread (Subscriber.run (holding sub frames) st)).
Proof.
  rewrite run_holding. apply (dispatch_accounts sub frames st []).
Qed.

(** Frames that arrive later do not change what was done with the earlier
    ones: the calls made for [earlier] are the first calls made for
    [earlier ++ later]; and once the handler has raised, no later frame
    leads to a call. *)
Theorem run_is_incremental {St Args : Type} (sub : Subscriber.t St Args)
    (earlier later : list string) (st : St) :
  (exists more,
      handed (Subscriber.run (holding sub (earlier ++ later)) st)
      = (handed (Subscriber.run (holding sub earlier) st) ++ more)%list) /\
  (forall e p,
      Subscriber.run (holding sub earlier) st = Subscriber.Crashed e p ->
      Subscriber.run (holding sub (earlier ++ later)) st
      = Subscriber.Crashed e
          (Subscriber.mk_progress
             (holding sub
                (Zmq.incoming (Subscriber.socket (Subscriber.subscriber p))
                 ++ later))
             (Subscriber.state p) (Subscriber.calls p))).
Proof.
  rewrite !run_holding, dispatch_app. split.
  - destruct (dispatch sub earlier st []) as [p|e p|p] eqn:E.
    + destruct (dispatch_accounts sub later (Subscriber.state p)
                  (Subscriber.calls p)) as (c & _ & H & _).
      rewrite H. eexists; reflexivity.
    + exists []. unfold handed; simpl. now rewrite app_nil_r.
    + exists []. unfold handed; simpl. now rewrite app_nil_r.
  - intros e p ->. reflexivity.
Qed.

Lemma handed_total_handler {St Args : Type} (sub : Subscriber.t St Args)
    (frames : list string) (st : St) :
  (forall msg s, exists s',
      Subscriber.handler sub msg (Subscriber.args sub) s = Subscriber.Returns s') ->
  handed (Subscriber.run (holding sub frames) st) = map (payload sub) frames.
Proof.
  intros Hh. rewrite run_holding.
  destruct (dispatch_total_handler sub frames st [] Hh) as [s' ->].
  reflexivity.
Qed.

Lemma handler_sees_matching_frames_aux {St Args : Type} (w : Zmq.world)
    (address port topic : string)
    (h : string -> Args -> St -> Subscriber.completion St) (kw : Args)
    (sub : Subscriber.t St Args) (frames : list string) (st : St) :
  Subscriber.init w address port topic h kw = Ok sub ->
  (forall msg s, exists s', h msg kw s = Subscriber.Returns s') ->
  handed (Subscriber.run (offered sub frames) st)
  = map (PyStr.drop (String.length topic + 1))
      (filter (String.prefix topic) frames).
Proof.
  intros Hs Hh. rewrite (offered_init _ _ _ _ _ _ _ _ Hs).
  rewrite handed_total_handler.
  - apply map_ext. intros f. apply (payload_init _ _ _ _ _ _ _ _ Hs).
  - apply subscriber_init_inv in Hs as (-> & -> & _). exact Hh.
Qed.

(** Out of any stream of frames offered to a subscriber whose handler does
    not raise, the handler is called for exactly the frames that start with
    the subscriber's topic, in their order, each less its first
    [len(topic) + 1] characters. *)
Theorem handler_sees_matching_frames {St Args : Type} (w : Zmq.world)
    (address port topic : string)
    (h : string -> Args -> St -> Subscriber.completion St) (kw : Args)
    (sub : Subscriber.t St Args) (frames : list string) (st : St) :
  Subscriber.init w address port topic h kw = Ok sub ->
  (forall msg s, exists s', h msg kw s = Subscriber.Returns s') ->
  handed (Subscriber.run (offered sub frames) st)
  = map (PyStr.drop (String.length topic + 1))
      (filter (String.prefix topic) frames).
Proof. apply handler_sees_matching_frames_aux. Qed.

Lemma handler_sees_matching_frames_witness :
  handed (Subscriber.run
            (offered weather_sub
               ["weather!22C"; "traffic!jam"; "weatherman!hi"; "weather!23C"])
            [])
  = ["22C"; "an!hi"; "23C"].
Proof.
  apply (handler_sees_matching_frames quiet "localhost" "5560" "weather"
           collect tt weather_sub
           ["weather!22C"; "traffic!jam"; "weatherman!hi"; "weather!23C"] []).
  - reflexivity.
  - intros msg s. eexists. reflexivity.
Defined.

(** From publisher to handler through the broker.  A publisher sends some
    messages under a topic; the broker relays what reaches it, where other
    traffic may be mixed in as long as none of it starts with the topic; a
    subscriber for the same topic, with a handler that does not raise, has
    its handler called with exactly the messages, in the order sent. *)
Theorem messages_arrive_in_order {St Args : Type} (w w' wb wb' : Zmq.world)
    (address port address' port' topic : string) (messages : list string)
    (h : string -> Args -> St -> Subscriber.completion St) (kw : Args)
    (pub pub' : Publisher.t) (sub : Subscriber.t St Args)
    (broker : MessageBroker.t) (arrivals : list string)
    (frontend backend : Zmq.socket) (st : St) :
  Publisher.init w address port topic = Ok pub ->
  Subscriber.init w' address' port' topic h kw = Ok sub ->
  (forall msg s, exists s', h msg kw s = Subscriber.Returns s') ->
  send_all pub messages = Ok pub' ->
  filter (String.prefix topic) arrivals = wire pub' ->
  MessageBroker.run broker wb arrivals = Ok (wb', (frontend, backend)) ->
  handed (Subscriber.run (offered sub (Zmq.outgoing backend)) st) = messages.
Proof.
  intros Hp Hs Hh Hsend Harr Hrun.
  apply broker_run_ok_inv in Hrun as (-> & _).
  rewrite (handler_sees_matching_frames_aux _ _ _ _ _ _ _ _ _ Hs Hh), Harr.
  rewrite send_all_eq in Hsend. injection Hsend as <-.
  apply publisher_init_inv in Hp as [-> Hw]. unfold wire in *; simpl.
  rewrite Hw. simpl. rewrite map_map.
  rewrite <- (map_id messages) at 2. apply map_ext.
  intros m. apply drop_frame.
Qed.

Lemma messages_arrive_in_order_witness :
  handed (Subscriber.run
            (offered weather_sub ["weather!22C"; "traffic!jam"; "weather!23C"])
            [])
  = ["22C"; "23C"].
Proof.
  apply (messages_arrive_in_order quiet quiet quiet
           (Zmq.mk_world (Zmq.bind_errno quiet) (Zmq.connect_errno quiet)
              ["tcp://*:5560"; "tcp://*:5559"])
           "localhost" "5559" "localhost" "5560" "weather" ["22C"; "23C"]
           collect tt weather_pub
           (Publisher.mk "weather"
              (Zmq.mk_socket Zmq.PUB [] ["tcp://localhost:5559"] []
                 ["weather!22C"; "weather!23C"] []))
           weather_sub (MessageBroker.init "5559" "5560")
           ["weather!22C"; "traffic!jam"; "weather!23C"]
           (Zmq.mk_socket Zmq.XSUB ["tcp://*:5559"] [] [] [] [])
           (Zmq.mk_socket Zmq.XPUB ["tcp://*:5560"] [] []
              ["weather!22C"; "traffic!jam"; "weather!23C"] [])
           []);
    try reflexivity.
  intros msg s. eexists. reflexivity.
Defined.

(** A subscriber made with the empty topic lets every frame in and hands
    the handler each frame less its first character. *)
Theorem empty_topic_receives_everything {St Args : Type} (w : Zmq.world)
    (address port : string)
    (h : string -> Args -> St -> Subscriber.completion St) (kw : Args)
    (sub : Subscriber.t St Args) (frame : string) (st : St) :
  Subscriber.init w address port "" h kw = Ok sub ->
  receives sub frame = true /\
  handed (Subscriber.run (offered sub [frame]) st) = [tail frame].
Proof.
  intros Hs.
  assert (R : receives sub frame = true).
  { rewrite (receives_init _ _ _ _ _ _ _ _ Hs). now destruct frame. }
  split; [exact R|].
  rewrite (offered_single _ _ _ _ _ _ _ _ Hs), R, handed_run_single.
  now rewrite (payload_init _ _ _ _ _ _ _ _ Hs).
Qed.

Lemma empty_topic_receives_everything_witness :
  receives any_sub "traffic!jam" = true /\
  handed (Subscriber.run (offered any_sub ["traffic!jam"]) [])
  = [tail "traffic!jam"].
Proof.
  apply (empty_topic_receives_everything quiet "localhost" "5560" collect tt
           any_sub "traffic!jam" []).
  reflexivity.
Defined.

Lemma dispatch_fold {St Args : Type} (sub : Subscriber.t St Args)
    (step : St -> string -> St) (frames : list string) (st : St)
    (calls : list string) :
  (forall msg s,
      Subscriber.handler sub msg (Subscriber.args sub) s
      = Subscriber.Returns (step s msg)) ->
  dispatch sub frames st calls
  = Subscriber.Blocked
      (Subscriber.mk_progress (holding sub [])
         (fold_left step (map (payload sub) frames) st)
         (calls ++ map (payload sub) frames)%list).
Proof.
  intros Hh. revert st calls; induction frames as [|f later IH];
    intros st calls; simpl.
  - now rewrite app_nil_r.
  - rewrite Hh, IH, <- app_assoc. reflexivity.
Qed.

(** What the handler makes of a run.  If a call of the handler amounts to
    one step on its state, the loop leaves the state that these steps give
    when taken once per frame, in the order of arrival, on the frames'
    payloads; the loop then waits with nothing unread.  A handler that
    appends to a list ends up with the list of the payloads. *)
Theorem run_folds_handler {St Args : Type} (sub : Subscriber.t St Args)
    (step : St -> string -> St) (frames : list string) (st : St) :
  (forall msg s,
      Subscriber.handler sub msg (Subscriber.args sub) s
      = Subscriber.Returns (step s msg)) ->
  Subscriber.run (holding sub frames) st
  = Subscriber.Blocked
      (Subscriber.mk_progress (holding sub [])
         (fold_left step (map (payload sub) frames) st)
         (map (payload sub) frames)).
Proof.
  intros Hh. rewrite run_holding. apply (dispatch_fold sub step frames st [] Hh).
Qed.

Lemma run_folds_handler_witness :
  Subscriber.run (holding weather_sub ["weather!22C"; "weather!23C"]) []
  = Subscriber.Blocked
      (Subscriber.mk_progress (holding weather_sub []) ["22C"; "23C"]
         ["22C"; "23C"]).
Proof.
  apply (run_folds_handler weather_sub (fun seen msg => seen ++ [msg])%list
           ["weather!22C"; "weather!23C"] []).
  intros msg s. reflexivity.
Defined.

Lemma contains_append (c : ascii) (a b : string) :
  contains c (a ++ b) = contains c a || contains c b.
Proof.
  induction a as [|x a IH]; simpl; [reflexivity|].
  now rewrite IH, orb_assoc.
Qed.

(** A separator-free filter looks at the topic only: such a subscriber lets
    a publisher's frame in exactly when its topic is a prefix of the
    publisher's topic, so no message can make a frame pass or fail. *)
Theorem separator_free_filter_sees_topic_only {St Args : Type}
    (w w' : Zmq.world)
    (address port address' port' topic topic' message : string)
    (h : string -> Args -> St -> Subscriber.completion St) (kw : Args)
    (sub : Subscriber.t St Args) (pub pub' : Publisher.t) :
  contains separator topic = false ->
  Subscriber.init w address port topic h kw = Ok sub ->
  Publisher.init w' address' port' topic' = Ok pub ->
  Publisher.send pub message = Ok pub' ->
  (Zmq.incoming (Subscriber.socket (offered sub (wire pub'))) = wire pub'
   <-> is_prefix topic topic') /\
  (Zmq.incoming (Subscriber.socket (offered sub (wire pub'))) = []
   <-> ~ is_prefix topic topic').
Proof.
  intros Hsep Hs Hp Hsend.
  rewrite (published_frame _ _ _ _ _ _ _ Hp Hsend).
  rewrite (offered_single _ _ _ _ _ _ _ _ Hs).
  assert (R : receives sub (topic' ++ "!" ++ message) = true
              <-> is_prefix topic topic').
  { rewrite (receives_init _ _ _ _ _ _ _ _ Hs), prefix_true_iff. split.
    - intros H. destruct (is_prefix_split _ _ _ H) as [Hp1|[r ->]];
        [exact Hp1|].
      destruct r as [|c r]; [rewrite append_empty_r; apply is_prefix_refl|].
      destruct H as [rest H]. rewrite append_assoc in H.
      apply append_inv_head in H. simpl in H. injection H as <- _.
      rewrite contains_append in Hsep. simpl in Hsep.
      apply orb_false_elim in Hsep as [_ Hsep]. discriminate.
    - apply is_prefix_append. }
  destruct (receives sub _); simpl.
  - assert (P : is_prefix topic topic') by now apply R.
    split; split; intros H; try reflexivity; try assumption;
      [discriminate | contradiction].
  - assert (P : ~ is_prefix topic topic')
      by (intros P; apply R in P; discriminate).
    split; split; intros H; try reflexivity; try assumption;
      [discriminate | contradiction].
Qed.

Lemma separator_free_filter_sees_topic_only_witness :
  (Zmq.incoming (Subscriber.socket (offered weather_sub ["traffic!weather"]))
   = ["traffic!weather"] <-> is_prefix "weather" "traffic") /\
  (Zmq.incoming (Subscriber.socket (offered weather_sub ["traffic!weather"]))
   = [] <-> ~ is_prefix "weather" "traffic").
Proof.
  apply (separator_free_filter_sees_topic_only quiet quiet "localhost" "5560"
           "localhost" "5559" "weather" "traffic" "weather" collect tt
           weather_sub traffic_pub
           (Publisher.mk "traffic"
              (Zmq.send_string (Publisher.socket traffic_pub)
                 "traffic!weather")));
    reflexivity.
Defined.
